(** * EtCloudFhe: the encrypted-image contract and its oracle protocol

    A shallow embedding of [contracts/EtCloudFhe.sol].  Contract storage
    is a record of the four state variables; the three Solidity mappings
    are finite maps read with the zero value as default, as the EVM does.
    External functions run in a state-and-revert monad over a [World]
    made of the storage, the state of the FHE library (the decryption
    oracle) and the log of the three events that the contract declares
    (events emitted inside the FHE library are not part of it).  The
    FHE library is not part of the contract: it is an interface,
    [Host], over which every theorem is universally quantified. *)

From Stdlib Require Import ZArith Lia String.
From stdpp Require Import base option list gmap sorting.

Open Scope Z_scope.

(** ** Data model *)

Definition UINT256_MAX : Z := 2 ^ 256 - 1.
Definition UINT32_MAX : Z := 2 ^ 32 - 1.

(** [struct EncryptedImage]; [euint32] is a 32-byte ciphertext handle. *)
Record EncryptedImage := mkImage {
  id : Z;
  owner : Z;
  encryptedData : Z;
  timestamp : Z;
  isProcessed : bool
}.

(** [struct ReconstructionResult]; its [timestamp] field is spelled
    [resultTimestamp] here, the name being taken by [EncryptedImage]. *)
Record ReconstructionResult := mkResult {
  imageId : Z;
  encryptedResult : Z;
  resultTimestamp : Z
}.

Inductive Event :=
| ImageUploaded (i : Z) (o : Z) (ts : Z)
| ReconstructionRequested (i : Z)
| ReconstructionCompleted (i : Z) (ts : Z).

(** The contract state: [imageCount] and the three mappings. *)
Record State := mkState {
  imageCount : Z;
  encryptedImages : gmap Z EncryptedImage;
  reconstructionResults : gmap Z ReconstructionResult;
  userImages : gmap Z (list Z)
}.

(** [msg.sender] and [block.timestamp] of a call. *)
Record Ctx := mkCtx {
  msg_sender : Z;
  block_timestamp : Z
}.

(** How a call can revert: a [require] with its message, an arithmetic
    panic (code 0x11), a failed [abi.decode], or a revert inside the
    FHE library. *)
Inductive Failure :=
| Error (reason : string)
| Panic (code : Z)
| DecodeFailure
| LibraryRevert.

Inductive Result (A : Type) :=
| Ok (a : A)
| Revert (f : Failure).
Arguments Ok {A} a.
Arguments Revert {A} f.

(** The spec's names for the three [require] messages of the contract. *)
Definition NotAuthorized : Failure := Error "Not image owner".
Definition AlreadyProcessed : Failure := Error "Image already processed".
Definition NotReady : Failure := Error "Reconstruction not completed".

(** ** The environment of the contract

    What [EtCloudFhe] takes from outside: the four [FHE] library calls
    and the selector of its own callback.  [oracle] is the library's
    state (the decryption requests it has recorded).  [checkSignatures]
    returns [None] when the library reverts. *)
Class Host := {
  oracle : Type;
  toBytes32 : Z -> Z;
  requestDecryption : oracle -> list Z -> Z -> Z * oracle;
  checkSignatures : oracle -> Z -> list Byte.byte -> list Byte.byte -> option oracle;
  asEuint32 : Z -> Z;
  processReconstruction_selector : Z
}.

(** ** Reading mappings: an absent key reads as the zero value *)

Definition zeroImage : EncryptedImage := mkImage 0 0 0 0 false.
Definition zeroResult : ReconstructionResult := mkResult 0 0 0.

Definition image (s : State) (i : Z) : EncryptedImage :=
  default zeroImage (encryptedImages s !! i).

Definition result (s : State) (i : Z) : ReconstructionResult :=
  default zeroResult (reconstructionResults s !! i).

Definition imagesOf (s : State) (u : Z) : list Z :=
  default [] (userImages s !! u).

(** ** [abi.decode(cleartexts, (uint32))]

    The first 32-byte word, big-endian; reverts when fewer than 32 bytes
    are given or when the word does not fit 32 bits. *)
Fixpoint be_value (bs : list Byte.byte) (acc : Z) : Z :=
  match bs with
  | [] => acc
  | b :: rest => be_value rest (acc * 256 + Z.of_N (Byte.to_N b))
  end.

Definition abi_decode_uint32 (cleartexts : list Byte.byte) : option Z :=
  if (length cleartexts <? 32)%nat then None
  else
    let w := be_value (take 32 cleartexts) 0 in
    if w <=? UINT32_MAX then Some w else None.

(** ** View functions and the owner modifier *)

Definition View (A : Type) : Type := State -> Result A.

(** [modifier onlyImageOwner(imageId)] *)
Definition onlyImageOwner (c : Ctx) (i : Z) : View unit :=
  fun s =>
    if decide (owner (image s i) = msg_sender c) then Ok tt
    else Revert (Error "Not image owner").

Definition getReconstructionResult (c : Ctx) (i : Z) : View Z :=
  fun s =>
    match onlyImageOwner c i s with
    | Revert f => Revert f
    | Ok _ =>
        if isProcessed (image s i) then Ok (encryptedResult (result s i))
        else Revert (Error "Reconstruction not completed")
    end.

Definition getUserImageIds (user : Z) : View (list Z) :=
  fun s => Ok (imagesOf s user).

Definition getImageMetadata (i : Z) : View (Z * Z * bool) :=
  fun s =>
    let img := image s i in
    Ok (owner img, timestamp img, isProcessed img).

(** ** State-changing functions *)

Section Contract.
Context {H : Host}.

Record World := mkWorld {
  storage : State;
  fhe : oracle;
  log : list Event
}.

Definition M (A : Type) : Type := World -> Result (A * World).

Definition ret {A} (a : A) : M A := fun w => Ok (a, w).
Definition bind {A B} (m : M A) (k : A -> M B) : M B :=
  fun w => match m w with
           | Ok (a, w') => k a w'
           | Revert f => Revert f
           end.
Definition revert {A} (f : Failure) : M A := fun _ => Revert f.
Definition require (b : bool) (reason : string) : M unit :=
  if b then ret tt else revert (Error reason).
Definition view {A} (v : View A) : M A :=
  fun w => match v (storage w) with
           | Ok a => Ok (a, w)
           | Revert f => Revert f
           end.
Definition read {A} (f : State -> A) : M A := fun w => Ok (f (storage w), w).
Definition write (f : State -> State) : M unit :=
  fun w => Ok (tt, mkWorld (f (storage w)) (fhe w) (log w)).
Definition emit (e : Event) : M unit :=
  fun w => Ok (tt, mkWorld (storage w) (fhe w) (log w ++ [e])).

Notation "x <- m ;; k" := (bind m (fun x => k))
  (at level 100, m at next level, right associativity).
Notation "m ;;; k" := (bind m (fun _ => k))
  (at level 100, right associativity).

(** [FHE.requestDecryption]: the library issues a request id and
    records the request in its own state. *)
Definition FHE_requestDecryption (cts : list Z) (sel : Z) : M Z :=
  fun w =>
    let '(reqId, o') := requestDecryption (fhe w) cts sel in
    Ok (reqId, mkWorld (storage w) o' (log w)).

(** [FHE.checkSignatures]: reverts unless the library accepts.  An
    event that the library emits on success is the library's own and
    is not entered in [log], which holds the contract's events. *)
Definition FHE_checkSignatures (requestId : Z) (cleartexts proof : list Byte.byte) : M unit :=
  fun w =>
    match checkSignatures (fhe w) requestId cleartexts proof with
    | Some o' => Ok (tt, mkWorld (storage w) o' (log w))
    | None => Revert LibraryRevert
    end.

Definition abi_decode (cleartexts : list Byte.byte) : M Z :=
  match abi_decode_uint32 cleartexts with
  | Some v => ret v
  | None => revert DecodeFailure
  end.

(** [imageCount++] under checked arithmetic. *)
Definition incrementImageCount : M unit :=
  n <- read imageCount ;;
  if decide (n = UINT256_MAX) then revert (Panic 17)
  else write (fun s => mkState (n + 1) (encryptedImages s)
                         (reconstructionResults s) (userImages s)).

Definition uploadEncryptedImage (c : Ctx) (data : Z) : M unit :=
  incrementImageCount ;;;
  newId <- read imageCount ;;
  write (fun s => mkState (imageCount s)
           (<[newId := mkImage newId (msg_sender c) data (block_timestamp c) false]>
              (encryptedImages s))
           (reconstructionResults s) (userImages s)) ;;;
  write (fun s => mkState (imageCount s) (encryptedImages s)
           (reconstructionResults s)
           (<[msg_sender c := imagesOf s (msg_sender c) ++ [newId]]> (userImages s))) ;;;
  emit (ImageUploaded newId (msg_sender c) (block_timestamp c)).

Definition requestReconstruction (c : Ctx) (i : Z) : M unit :=
  view (onlyImageOwner c i) ;;;
  processed <- read (fun s => isProcessed (image s i)) ;;
  require (negb processed) "Image already processed" ;;;
  data <- read (fun s => encryptedData (image s i)) ;;
  let ciphertexts := [toBytes32 data] in
  reqId <- FHE_requestDecryption ciphertexts processReconstruction_selector ;;
  emit (ReconstructionRequested i).

Definition markImageProcessed (img : EncryptedImage) : EncryptedImage :=
  mkImage (id img) (owner img) (encryptedData img) (timestamp img) true.

Definition processReconstruction (c : Ctx) (requestId : Z)
    (cleartexts proof : list Byte.byte) : M unit :=
  FHE_checkSignatures requestId cleartexts proof ;;;
  v <- abi_decode cleartexts ;;
  let encResult := asEuint32 v in
  write (fun s => mkState (imageCount s) (encryptedImages s)
           (<[requestId := mkResult requestId encResult (block_timestamp c)]>
              (reconstructionResults s))
           (userImages s)) ;;;
  write (fun s => mkState (imageCount s)
           (<[requestId := markImageProcessed (image s requestId)]> (encryptedImages s))
           (reconstructionResults s) (userImages s)) ;;;
  emit (ReconstructionCompleted requestId (block_timestamp c)).

(** ** Transactions and traces

    A call that reverts leaves the world as it was. *)
Inductive Call :=
| UploadEncryptedImage (data : Z)
| RequestReconstruction (i : Z)
| ProcessReconstruction (requestId : Z) (cleartexts proof : list Byte.byte).

Definition call (c : Ctx) (k : Call) : M unit :=
  match k with
  | UploadEncryptedImage data => uploadEncryptedImage c data
  | RequestReconstruction i => requestReconstruction c i
  | ProcessReconstruction r ct pf => processReconstruction c r ct pf
  end.

Definition succeeds (c : Ctx) (k : Call) (w : World) : bool :=
  match call c k w with Ok _ => true | Revert _ => false end.

Definition transact (c : Ctx) (k : Call) (w : World) : World :=
  match call c k w with
  | Ok (_, w') => w'
  | Revert _ => w
  end.

Fixpoint run (tr : list (Ctx * Call)) (w : World) : World :=
  match tr with
  | [] => w
  | (c, k) :: rest => run rest (transact c k w)
  end.

(** The calls of a trace that did not revert, in order. *)
Fixpoint accepted (tr : list (Ctx * Call)) (w : World) : list (Ctx * Call) :=
  match tr with
  | [] => []
  | (c, k) :: rest =>
      (if succeeds c k w then [(c, k)] else []) ++ accepted rest (transact c k w)
  end.

Definition emptyState : State := mkState 0 ∅ ∅ ∅.
Definition deployed (o : oracle) : World := mkWorld emptyState o [].

End Contract.

Arguments World : clear implicits.
Arguments M : clear implicits.

(** ** Bookkeeping over traces and logs *)

(** The senders of the upload calls of a trace, in order. *)
Fixpoint creators (tr : list (Ctx * Call)) : list Z :=
  match tr with
  | [] => []
  | (c, UploadEncryptedImage _) :: rest => msg_sender c :: creators rest
  | _ :: rest => creators rest
  end.

(** The callers of the [requestReconstruction i] calls of a trace. *)
Fixpoint requestsFor (i : Z) (tr : list (Ctx * Call)) : list Ctx :=
  match tr with
  | [] => []
  | (c, RequestReconstruction j) :: rest =>
      (if decide (j = i) then [c] else []) ++ requestsFor i rest
  | _ :: rest => requestsFor i rest
  end.

(** The ids [first], [first + 1], ... at the positions held by [u]. *)
Fixpoint idsCreatedBy (u : Z) (first : Z) (owners : list Z) : list Z :=
  match owners with
  | [] => []
  | o :: rest =>
      (if decide (o = u) then [first] else []) ++ idsCreatedBy u (first + 1) rest
  end.

(** The ids announced by the [ImageUploaded] events of a log, in order. *)
Definition uploadedIds (l : list Event) : list Z :=
  omap (fun e => match e with ImageUploaded i _ _ => Some i | _ => None end) l.

(** Every callback of the trace that is accepted has a request id
    that does not exceed [imageCount] at that moment. *)
Fixpoint callbacksWithinCount {H : Host} (tr : list (Ctx * Call)) (w : World H) : Prop :=
  match tr with
  | [] => True
  | (c, k) :: rest =>
      match k with
      | ProcessReconstruction r _ _ =>
          succeeds c k w = true -> r <= imageCount (storage w)
      | _ => True
      end /\ callbacksWithinCount rest (transact c k w)
  end.

(** The request ids issued along a trace: those returned by
    [FHE.requestDecryption] in the accepted [requestReconstruction]
    calls, in order. *)
Fixpoint issuedIds {H : Host} (tr : list (Ctx * Call)) (w : World H) : list Z :=
  match tr with
  | [] => []
  | (c, k) :: rest =>
      match k with
      | RequestReconstruction i =>
          if succeeds c k w
          then [fst (requestDecryption (fhe w)
                       [toBytes32 (encryptedData (image (storage w) i))]
                       processReconstruction_selector)]
          else []
      | _ => []
      end ++ issuedIds rest (transact c k w)
  end.

(** The event that the contract declares for a call: the caller and
    block timestamp of an upload, the id of a request, the request id
    and block timestamp of a callback. *)
Definition announces (ck : Ctx * Call) (e : Event) : Prop :=
  match ck, e with
  | (c, UploadEncryptedImage _), ImageUploaded _ o ts =>
      o = msg_sender c /\ ts = block_timestamp c
  | (_, RequestReconstruction i), ReconstructionRequested j => j = i
  | (c, ProcessReconstruction r _ _), ReconstructionCompleted j ts =>
      j = r /\ ts = block_timestamp c
  | _, _ => False
  end.

(** ** What the contract relies on from the FHE library

    The library keeps the decryption requests it has issued on record
    ([onRecord]).  A request puts nothing on record but the id it
    returns; [FHE.checkSignatures] reverts for a request id that is not
    on record, and puts nothing on record. *)
Definition recordsOnlyIssued {H : Host} (onRecord : oracle -> Z -> bool) : Prop :=
  forall o cts sel r,
    onRecord (snd (requestDecryption o cts sel)) r = true ->
    r = fst (requestDecryption o cts sel) \/ onRecord o r = true.

Definition checksOnRecord {H : Host} (onRecord : oracle -> Z -> bool) : Prop :=
  forall o r ct pf o',
    checkSignatures o r ct pf = Some o' ->
    onRecord o r = true /\ forall r', onRecord o' r' = true -> onRecord o r' = true.

(** ** The ABI encoding of a [uint32]

    One 32-byte word, big-endian: 28 zero bytes and the four bytes of
    the value. *)
Definition byteOf (n : Z) : Byte.byte :=
  default Byte.x00 (Byte.of_N (Z.to_N (n mod 256))).

Definition abi_encode_uint32 (v : Z) : list Byte.byte :=
  replicate 28 Byte.x00 ++
  [byteOf (v / 2 ^ 24); byteOf (v / 2 ^ 16); byteOf (v / 2 ^ 8); byteOf v].

(** ** A concrete host, used to run the contract on examples *)

#[local] Instance byte_eq_decision : EqDecision Byte.byte := Byte.byte_eq_dec.

(** One accepted proof, and the 32-byte encoding of a small number. *)
Definition goodProof : list Byte.byte := [Byte.x01].
Definition word (b : Byte.byte) : list Byte.byte := replicate 31 Byte.x00 ++ [b].

(** A library that keeps a table of the requests it issued: request
    ids come from a counter that starts at 0, and a callback is accepted
    when its id is in the table and its proof is [goodProof].  Accepting
    a callback does not remove the request. *)
Record RequestTable := mkTable {
  counterRequest : Z;
  requestedHandles : gmap Z (list Z)
}.

Definition TableHost : Host := {|
  oracle := RequestTable;
  toBytes32 := fun h => h;
  requestDecryption := fun o cts _ =>
    (counterRequest o,
     mkTable (counterRequest o + 1) (<[counterRequest o := cts]> (requestedHandles o)));
  checkSignatures := fun o r _ pf =>
    match requestedHandles o !! r with
    | Some _ => if decide (pf = goodProof) then Some o else None
    | None => None
    end;
  asEuint32 := fun v => 1000 + v;
  processReconstruction_selector := 0
|}.

(** The request ids this library has on record. *)
Definition tableOnRecord (o : RequestTable) (r : Z) : bool :=
  bool_decide (is_Some (requestedHandles o !! r)).

Definition alice : Ctx := mkCtx 10 100.
Definition bob : Ctx := mkCtx 20 200.
Definition relayer : Ctx := mkCtx 30 300.

Definition tableStart : World TableHost := @deployed TableHost (mkTable 0 ∅).

(** Alice uploads an image, asks for its reconstruction (the library
    issues request id 0), and the callback for request id 0 is
    accepted. *)
Definition honestFlow : list (Ctx * Call) :=
  [(alice, UploadEncryptedImage 5); (alice, RequestReconstruction 1);
   (relayer, ProcessReconstruction 0 (word Byte.x07) goodProof)].

(** Alice uploads an image and asks once for its reconstruction. *)
Definition requestedOnce : list (Ctx * Call) :=
  [(alice, UploadEncryptedImage 5); (alice, RequestReconstruction 1)].

(** Alice uploads an image; nobody requests anything. *)
Definition uploadedOnly : list (Ctx * Call) := [(alice, UploadEncryptedImage 5)].

(** Alice uploads, requests twice (request ids 0 and 1), and the
    callback for request id 1 is accepted. *)
Definition completedOnce : list (Ctx * Call) :=
  [(alice, UploadEncryptedImage 5);
   (alice, RequestReconstruction 1); (alice, RequestReconstruction 1);
   (relayer, ProcessReconstruction 1 (word Byte.x07) goodProof)].

(** Alice uploads and requests three times (request ids 0, 1, 2); the
    callback for request id 2 is accepted while one record exists. *)
Definition callbackAhead : list (Ctx * Call) :=
  [(alice, UploadEncryptedImage 5);
   (alice, RequestReconstruction 1); (alice, RequestReconstruction 1);
   (alice, RequestReconstruction 1);
   (relayer, ProcessReconstruction 2 (word Byte.x07) goodProof)].

(** Alice and Bob upload; Bob requests his image twice (request ids 0
    and 1); the callback for request id 1 is accepted. *)
Definition crossedCallback : list (Ctx * Call) :=
  [(alice, UploadEncryptedImage 5); (bob, UploadEncryptedImage 6);
   (bob, RequestReconstruction 2); (bob, RequestReconstruction 2);
   (relayer, ProcessReconstruction 1 (word Byte.x07) goodProof)].

(** Alice, Bob and Alice again upload; Alice's first image is requested
    and completed in between. *)
Definition threeUploads : list (Ctx * Call) :=
  [(alice, UploadEncryptedImage 5); (bob, UploadEncryptedImage 6);
   (alice, RequestReconstruction 1); (alice, RequestReconstruction 1);
   (relayer, ProcessReconstruction 1 (word Byte.x07) goodProof);
   (alice, UploadEncryptedImage 7)].

(** ** Invariants of the storage *)

(** Outside the range of assigned ids a slot has no owner and no
    timestamp; a processed slot has a result. *)
Definition blankOutside (s : State) : Prop :=
  0 <= imageCount s /\
  forall i, ~ (1 <= i <= imageCount s) ->
    owner (image s i) = 0 /\ timestamp (image s i) = 0.

Definition processedHasResult (s : State) : Prop :=
  forall i, isProcessed (image s i) = true -> is_Some (reconstructionResults s !! i).

(** A stored result lies under an id that does not exceed
    [imageCount], in a slot that is flagged processed. *)
Definition resultsWithinCount (s : State) : Prop :=
  forall i, is_Some (reconstructionResults s !! i) ->
    i <= imageCount s /\ isProcessed (image s i) = true.

(** The counter fits [uint256]. *)
Definition countInRange (s : State) : Prop :=
  0 <= imageCount s <= UINT256_MAX.

(** The owner index lists, in increasing order, exactly the records
    whose [owner] field is the indexed address. *)
Definition ownerIndexed (s : State) : Prop :=
  forall u,
    StronglySorted Z.lt (imagesOf s u) /\
    forall i, i ∈ imagesOf s u <-> 1 <= i <= imageCount s /\ owner (image s i) = u.

(** What an event of the log says about the storage. *)
Definition eventHolds (s : State) (e : Event) : Prop :=
  match e with
  | ImageUploaded i own ts =>
      1 <= i <= imageCount s /\
      owner (image s i) = own /\ timestamp (image s i) = ts
  | ReconstructionCompleted i _ => is_Some (reconstructionResults s !! i)
  | ReconstructionRequested _ => True
  end.

(** ** Further bookkeeping over traces *)

(** The upload calls of a trace with their ciphertext handles, in order. *)
Fixpoint uploadsOf (tr : list (Ctx * Call)) : list (Ctx * Z) :=
  match tr with
  | [] => []
  | (c, UploadEncryptedImage data) :: rest => (c, data) :: uploadsOf rest
  | _ :: rest => uploadsOf rest
  end.

(** The callback of one call, when it is a callback for request id [i]. *)
Definition callbackFor (i : Z) (ck : Ctx * Call) : option (Ctx * list Byte.byte) :=
  match ck with
  | (c, ProcessReconstruction r ct _) => if decide (r = i) then Some (c, ct) else None
  | _ => None
  end.

(** The last callback of a trace for request id [i]: its caller and
    its cleartexts. *)
Fixpoint lastCallback (i : Z) (tr : list (Ctx * Call)) : option (Ctx * list Byte.byte) :=
  match tr with
  | [] => None
  | ck :: rest =>
      match lastCallback i rest with
      | Some x => Some x
      | None => callbackFor i ck
      end
  end.

(** * Properties *)

Section Properties.
Context {H : Host}.
Implicit Types (w : World H) (c : Ctx) (s : State) (k : Call) (i : Z).

(** ** What each external function computes, in closed form *)

Lemma uploadEncryptedImage_eq c data w :
  uploadEncryptedImage c data w =
  let s := storage w in
  let newId := imageCount s + 1 in
  if decide (imageCount s = UINT256_MAX) then Revert (Panic 17)
  else Ok (tt, mkWorld
             (mkState newId
                (<[newId := mkImage newId (msg_sender c) data (block_timestamp c) false]>
                   (encryptedImages s))
                (reconstructionResults s)
                (<[msg_sender c := imagesOf s (msg_sender c) ++ [newId]]> (userImages s)))
             (fhe w)
             (log w ++ [ImageUploaded newId (msg_sender c) (block_timestamp c)])).
Proof.
  cbv [uploadEncryptedImage incrementImageCount bind read write emit revert].
  cbv zeta. destruct (decide (imageCount (storage w) = UINT256_MAX)); reflexivity.
Qed.

Lemma requestReconstruction_eq c i w :
  requestReconstruction c i w =
  let s := storage w in
  if decide (owner (image s i) = msg_sender c) then
    if isProcessed (image s i) then Revert AlreadyProcessed
    else Ok (tt, mkWorld s
               (snd (requestDecryption (fhe w) [toBytes32 (encryptedData (image s i))]
                       processReconstruction_selector))
               (log w ++ [ReconstructionRequested i]))
  else Revert NotAuthorized.
Proof.
  cbv [requestReconstruction bind view onlyImageOwner read require ret revert
       FHE_requestDecryption emit NotAuthorized AlreadyProcessed].
  cbv zeta. destruct (decide (owner (image (storage w) i) = msg_sender c)); [|reflexivity].
  destruct (isProcessed (image (storage w) i)); cbn; [reflexivity|].
  destruct (requestDecryption _ _ _); reflexivity.
Qed.

Lemma processReconstruction_eq c r ct pf w :
  processReconstruction c r ct pf w =
  let s := storage w in
  match checkSignatures (fhe w) r ct pf with
  | None => Revert LibraryRevert
  | Some o' =>
      match abi_decode_uint32 ct with
      | None => Revert DecodeFailure
      | Some v =>
          Ok (tt, mkWorld
                (mkState (imageCount s)
                   (<[r := markImageProcessed (image s r)]> (encryptedImages s))
                   (<[r := mkResult r (asEuint32 v) (block_timestamp c)]>
                      (reconstructionResults s))
                   (userImages s))
                o'
                (log w ++ [ReconstructionCompleted r (block_timestamp c)]))
      end
  end.
Proof.
  cbv [processReconstruction bind FHE_checkSignatures abi_decode write emit ret revert].
  cbv zeta. destruct (checkSignatures (fhe w) r ct pf); [|reflexivity].
  cbn. destruct (abi_decode_uint32 ct); reflexivity.
Qed.

(** ** Reading a mapping after a write *)

Lemma image_after_write n m rs us j x i :
  image (mkState n (<[j := x]> m) rs us) i =
  if decide (j = i) then x else default zeroImage (m !! i).
Proof.
  unfold image; cbn. rewrite lookup_insert. by case_decide.
Qed.

(** Case analysis on one transaction, through the closed forms. *)
Ltac by_call k w :=
  unfold transact, succeeds, call;
  destruct k as [data | j | r ct pf];
  [ rewrite uploadEncryptedImage_eq; cbv zeta; case_decide
  | rewrite requestReconstruction_eq; cbv zeta; case_decide;
    [ destruct (isProcessed (image (storage w) j)) eqn:? | ]
  | rewrite processReconstruction_eq; cbv zeta;
    destruct (checkSignatures (fhe w) r ct pf) eqn:?;
    [ destruct (abi_decode_uint32 ct) eqn:? | ] ];
  cbn [storage fhe log imageCount encryptedImages reconstructionResults
       userImages fst snd].

(** ** One-step facts *)

Lemma transact_count_mono c k w :
  imageCount (storage w) <= imageCount (storage (transact c k w)).
Proof. by_call k w; lia. Qed.

Lemma transact_keeps_record c k w i :
  1 <= i <= imageCount (storage w) ->
  id (image (storage (transact c k w)) i) = id (image (storage w) i) /\
  owner (image (storage (transact c k w)) i) = owner (image (storage w) i) /\
  encryptedData (image (storage (transact c k w)) i) = encryptedData (image (storage w) i) /\
  timestamp (image (storage (transact c k w)) i) = timestamp (image (storage w) i).
Proof.
  intros Hi. by_call k w; try done.
  - rewrite image_after_write. case_decide; [lia | done].
  - rewrite image_after_write. case_decide; [by subst | done].
Qed.

Lemma transact_processed_stable c k w i :
  1 <= i <= imageCount (storage w) ->
  isProcessed (image (storage w) i) = true ->
  isProcessed (image (storage (transact c k w)) i) = true.
Proof.
  intros Hi Hp. by_call k w; try done.
  - rewrite image_after_write. case_decide; [lia | done].
  - rewrite image_after_write. case_decide; [done | done].
Qed.

Lemma transact_blankOutside c k w :
  blankOutside (storage w) -> blankOutside (storage (transact c k w)).
Proof.
  unfold blankOutside. intros [H0 Hout]. by_call k w; try (split; done).
  - split; [lia|]. intros i Hi. rewrite image_after_write.
    case_decide; [lia|]. apply Hout. lia.
  - split; [done|]. intros i Hi. rewrite image_after_write.
    case_decide; [subst; cbn; by apply Hout | by apply Hout].
Qed.

Lemma transact_processedHasResult c k w :
  processedHasResult (storage w) -> processedHasResult (storage (transact c k w)).
Proof.
  unfold processedHasResult. intros Hinv. by_call k w; try done.
  - intros i. rewrite image_after_write. case_decide; [done | apply Hinv].
  - intros i. rewrite image_after_write, lookup_insert.
    case_decide; [by eexists | apply Hinv].
Qed.

(** ** Facts about whole traces *)

Lemma run_blankOutside tr w :
  blankOutside (storage w) -> blankOutside (storage (run tr w)).
Proof.
  revert w. induction tr as [|[c k] tr IH]; intros w Hw; cbn; [done|].
  by apply IH, transact_blankOutside.
Qed.

Lemma run_processedHasResult tr w :
  processedHasResult (storage w) -> processedHasResult (storage (run tr w)).
Proof.
  revert w. induction tr as [|[c k] tr IH]; intros w Hw; cbn; [done|].
  by apply IH, transact_processedHasResult.
Qed.


Lemma run_keeps_record tr w i :
  1 <= i <= imageCount (storage w) ->
  id (image (storage (run tr w)) i) = id (image (storage w) i) /\
  owner (image (storage (run tr w)) i) = owner (image (storage w) i).
Proof.
  revert w. induction tr as [|[c k] tr IH]; intros w Hi; cbn; [done|].
  pose proof (transact_count_mono c k w).
  destruct (transact_keeps_record c k w i Hi) as (Hid & Hown & _).
  rewrite <- Hid, <- Hown. apply IH. lia.
Qed.

Lemma deployed_blankOutside o : blankOutside (storage (deployed o)).
Proof. split; [done|]. intros i _. done. Qed.

Lemma deployed_processedHasResult o : processedHasResult (storage (deployed o)).
Proof. intros i. done. Qed.

(** ** Identifier assignment *)

Lemma run_assigns_ids tr w :
  imageCount (storage w) + Z.of_nat (length (creators tr)) <= UINT256_MAX ->
  let w' := run tr w in
  let n := imageCount (storage w) in
  imageCount (storage w') = n + Z.of_nat (length (creators tr)) /\
  uploadedIds (log w') = uploadedIds (log w) ++ seqZ (n + 1) (Z.of_nat (length (creators tr))) /\
  (forall u, imagesOf (storage w') u =
             imagesOf (storage w) u ++ idsCreatedBy u (n + 1) (creators tr)) /\
  (0 <= n -> forall (j : nat) u, creators tr !! j = Some u ->
     id (image (storage w') (n + 1 + Z.of_nat j)) = n + 1 + Z.of_nat j /\
     owner (image (storage w') (n + 1 + Z.of_nat j)) = u).
Proof.
  revert w. induction tr as [|[c k] tr IH]; intros w Hmax.
  - cbn. rewrite Z.add_0_r. split; [done|]. split; [by rewrite app_nil_r|].
    split; [intros u; by rewrite app_nil_r | intros _ j u Hj; done].
  - destruct k as [data | j | r ct pf].
    + cbn [creators length] in Hmax |- *. cbn [run].
      assert (Hstep : transact c (UploadEncryptedImage data) w =
                mkWorld
                  (mkState (imageCount (storage w) + 1)
                     (<[imageCount (storage w) + 1 :=
                          mkImage (imageCount (storage w) + 1) (msg_sender c) data
                            (block_timestamp c) false]> (encryptedImages (storage w)))
                     (reconstructionResults (storage w))
                     (<[msg_sender c := imagesOf (storage w) (msg_sender c)
                                          ++ [imageCount (storage w) + 1]]>
                        (userImages (storage w))))
                  (fhe w)
                  (log w ++ [ImageUploaded (imageCount (storage w) + 1) (msg_sender c)
                               (block_timestamp c)])).
      { unfold transact, call. rewrite uploadEncryptedImage_eq. cbv zeta.
        case_decide; [lia | done]. }
      specialize (IH (transact c (UploadEncryptedImage data) w)).
      rewrite Hstep in IH |- *. cbn [storage log imageCount] in IH.
      destruct IH as (Hc & Hl & Hu & Hr); [lia|].
      split; [lia|]. split; [|split].
      * rewrite Hl. unfold uploadedIds. rewrite omap_app. cbn.
        rewrite <- app_assoc. f_equal.
        rewrite (seqZ_cons (imageCount (storage w) + 1)) by lia.
        cbn. do 2 f_equal; lia.
      * intros u. rewrite Hu. unfold imagesOf at 1. cbn [userImages].
        rewrite lookup_insert. cbn [idsCreatedBy].
        case_decide as Hd; cbn.
        -- subst u. by rewrite <- app_assoc.
        -- done.
      * intros Hn [|j'] u Hj.
        -- cbn in Hj. injection Hj as <-.
           replace (imageCount (storage w) + 1 + Z.of_nat 0)
             with (imageCount (storage w) + 1) by lia.
           set (w1 := mkWorld _ _ _) in *.
           destruct (run_keeps_record tr w1 (imageCount (storage w) + 1)) as [Hid Hown].
           { cbn. lia. }
           rewrite Hid, Hown. unfold w1. cbn [storage].
           rewrite image_after_write. case_decide; [done | lia].
        -- cbn in Hj. destruct (Hr ltac:(lia) j' u Hj) as [Hid Hown].
           replace (imageCount (storage w) + 1 + Z.of_nat (S j'))
             with (imageCount (storage w) + 1 + 1 + Z.of_nat j') by lia.
           done.
    + cbn [creators run]. specialize (IH (transact c (RequestReconstruction j) w)).
      assert (Hs : storage (transact c (RequestReconstruction j) w) = storage w
                   /\ uploadedIds (log (transact c (RequestReconstruction j) w))
                      = uploadedIds (log w)).
      { unfold transact, call. rewrite requestReconstruction_eq. cbv zeta.
        case_decide; [|done]. destruct (isProcessed _); [done|].
        cbn [storage log]. split; [done|]. unfold uploadedIds. rewrite omap_app. cbn.
        by rewrite app_nil_r. }
      destruct Hs as [Hs Hl]. rewrite Hs, Hl in IH. by apply IH.
    + cbn [creators run].
      specialize (IH (transact c (ProcessReconstruction r ct pf) w)).
      assert (Hs : imageCount (storage (transact c (ProcessReconstruction r ct pf) w))
                   = imageCount (storage w)
                   /\ userImages (storage (transact c (ProcessReconstruction r ct pf) w))
                      = userImages (storage w)
                   /\ uploadedIds (log (transact c (ProcessReconstruction r ct pf) w))
                      = uploadedIds (log w)).
      { unfold transact, call. rewrite processReconstruction_eq. cbv zeta.
        destruct (checkSignatures _ _ _ _); [|done].
        destruct (abi_decode_uint32 _); [|done].
        cbn [storage log imageCount userImages]. split; [done|]. split; [done|].
        unfold uploadedIds. rewrite omap_app. cbn. by rewrite app_nil_r. }
      destruct Hs as (Hc & Hu & Hl). unfold imagesOf in *.
      rewrite Hc, Hu, Hl in IH. by apply IH.
Qed.

(** ** Completion *)

Lemma run_processed_by_callback tr w i :
  isProcessed (image (storage (run tr w)) i) = true ->
  isProcessed (image (storage w) i) = true \/
  exists c ct pf, (c, ProcessReconstruction i ct pf) ∈ accepted tr w.
Proof.
  revert w. induction tr as [|[c k] tr IH]; intros w Hp; cbn in *; [by left|].
  destruct (IH _ Hp) as [Hnow | (c' & ct' & pf' & Hin)].
  - revert Hnow. unfold succeeds, transact, call.
    destruct k as [data | j | r ct pf].
    + rewrite uploadEncryptedImage_eq. cbv zeta. case_decide; [by left|].
      cbn [storage]. rewrite image_after_write. case_decide; [done | by left].
    + rewrite requestReconstruction_eq. cbv zeta.
      case_decide; [|by left]. destruct (isProcessed (image (storage w) j)); by left.
    + rewrite processReconstruction_eq. cbv zeta.
      destruct (checkSignatures (fhe w) r ct pf); [|by left].
      destruct (abi_decode_uint32 ct); [|by left].
      cbn [storage]. rewrite image_after_write. case_decide; [|by left].
      subst r. intros _. right. exists c, ct, pf. cbn. by left.
  - right. exists c', ct', pf'. apply elem_of_app. by right.
Qed.

Lemma run_result_by_callback tr w i :
  is_Some (reconstructionResults (storage (run tr w)) !! i) ->
  is_Some (reconstructionResults (storage w) !! i) \/
  exists c ct pf, (c, ProcessReconstruction i ct pf) ∈ accepted tr w.
Proof.
  revert w. induction tr as [|[c k] tr IH]; intros w Hres; cbn in *; [by left|].
  destruct (IH _ Hres) as [Hnow | (c' & ct' & pf' & Hin)].
  - revert Hnow. unfold succeeds, transact, call.
    destruct k as [data | j | r ct pf].
    + rewrite uploadEncryptedImage_eq. cbv zeta. case_decide; by left.
    + rewrite requestReconstruction_eq. cbv zeta.
      case_decide; [|by left]. destruct (isProcessed (image (storage w) j)); by left.
    + rewrite processReconstruction_eq. cbv zeta.
      destruct (checkSignatures (fhe w) r ct pf); [|by left].
      destruct (abi_decode_uint32 ct); [|by left].
      cbn [storage reconstructionResults]. rewrite lookup_insert.
      case_decide; [|by left].
      subst r. intros _. right. exists c, ct, pf. cbn. by left.
  - right. exists c', ct', pf'. apply elem_of_app. by right.
Qed.

(** ** The claims *)

(** C1 (as amended).  The contract keeps no record of a request in
    flight: its only guard is [isProcessed].  So a second
    [requestReconstruction] on the same id, issued by the owner after
    a first successful one and before any callback, succeeds again;
    the storage is still what it was before the first request (the
    record is still unprocessed) and a second [ReconstructionRequested]
    event is logged. *)
Theorem requestReconstruction_repeatable c i w w1 :
  requestReconstruction c i w = Ok (tt, w1) ->
  exists w2,
    requestReconstruction c i w1 = Ok (tt, w2) /\
    storage w2 = storage w /\
    isProcessed (image (storage w2) i) = false /\
    log w2 = log w ++ [ReconstructionRequested i; ReconstructionRequested i].
Proof.
  rewrite !requestReconstruction_eq. cbv zeta.
  case_decide as Hown; [|done].
  destruct (isProcessed (image (storage w) i)) eqn:Hp; [done|].
  intros [= <-]. cbn [storage fhe log].
  rewrite decide_True by done. rewrite Hp.
  eexists. split; [reflexivity|]. cbn [storage log].
  split; [done|]. split; [done|]. by rewrite <- app_assoc.
Qed.

(** C3 (as amended).  [processReconstruction] does not look at
    [isProcessed]: a further completion for an id that is already
    processed, once [FHE.checkSignatures] accepts it and the
    cleartexts decode, succeeds and replaces the stored
    [ReconstructionResult] of that id by the new one; the flag stays
    true. *)
Theorem processReconstruction_overwrites c r ct pf w o' v :
  isProcessed (image (storage w) r) = true ->
  checkSignatures (fhe w) r ct pf = Some o' ->
  abi_decode_uint32 ct = Some v ->
  exists w',
    processReconstruction c r ct pf w = Ok (tt, w') /\
    reconstructionResults (storage w') !! r =
      Some (mkResult r (asEuint32 v) (block_timestamp c)) /\
    isProcessed (image (storage w') r) = true.
Proof.
  intros _ Hsig Hdec. rewrite processReconstruction_eq. cbv zeta.
  rewrite Hsig, Hdec. eexists. split; [reflexivity|]. cbn [storage].
  split.
  - cbn. by rewrite lookup_insert_eq.
  - rewrite image_after_write. by rewrite decide_True.
Qed.

(** C4.  For a caller that is not the owner recorded for the id (in
    particular for every existing record and every caller other than
    its owner), [requestReconstruction] and [getReconstructionResult]
    fail with "Not image owner" (NotAuthorized), and the request
    leaves the whole world (records, results, owner index, oracle
    state and log) as it was. *)
Theorem not_owner_rejected c i w :
  owner (image (storage w) i) <> msg_sender c ->
  requestReconstruction c i w = Revert NotAuthorized /\
  getReconstructionResult c i (storage w) = Revert NotAuthorized /\
  transact c (RequestReconstruction i) w = w.
Proof.
  intros Hne. unfold transact, call. rewrite requestReconstruction_eq. cbv zeta.
  unfold getReconstructionResult, onlyImageOwner.
  rewrite !decide_False by done. done.
Qed.

(** C5.  Along every trace from deployment (uploads, possibly
    interleaved with other calls) whose number of uploads fits
    [uint256]: the ids announced by the uploads are 1, 2, ..., n in
    this order (unique, strictly increasing, dense, each the previous
    count plus one); the record stored under the k-th id carries that
    id and the k-th uploader as owner; and [getUserImageIds u] returns
    exactly the ids uploaded by [u], in creation order. *)
Theorem upload_ids_dense_and_listed tr o :
  Z.of_nat (length (creators tr)) <= UINT256_MAX ->
  let w := run tr (deployed o) in
  let n := Z.of_nat (length (creators tr)) in
  imageCount (storage w) = n /\
  uploadedIds (log w) = seqZ 1 n /\
  (forall (j : nat) u, creators tr !! j = Some u ->
     id (image (storage w) (1 + Z.of_nat j)) = 1 + Z.of_nat j /\
     owner (image (storage w) (1 + Z.of_nat j)) = u) /\
  (forall u, getUserImageIds u (storage w) = Ok (idsCreatedBy u 1 (creators tr))).
Proof.
  intros Hmax.
  destruct (run_assigns_ids tr (deployed o)) as (Hc & Hl & Hu & Hr).
  { cbn. lia. }
  cbn [deployed storage log emptyState imageCount] in *.
  cbv zeta. split; [lia|]. split; [|split].
  - rewrite Hl. cbn. done.
  - intros j u Hj. specialize (Hr ltac:(lia) j u Hj). cbn in Hr. done.
  - intros u. unfold getUserImageIds. rewrite Hu. done.
Qed.

(** C10.  A [requestReconstruction] by the owner of a record that is
    not yet processed succeeds and writes nothing to the contract
    storage: [imageCount], every record, every result and the owner
    index are unchanged, and the request id returned by
    [FHE.requestDecryption] is dropped.  Its only effects are the
    hand-off recorded in the state of the FHE library and one
    [ReconstructionRequested] event. *)
Theorem requestReconstruction_frame c i w :
  owner (image (storage w) i) = msg_sender c ->
  isProcessed (image (storage w) i) = false ->
  exists w',
    requestReconstruction c i w = Ok (tt, w') /\
    storage w' = storage w /\
    fhe w' = snd (requestDecryption (fhe w)
                    [toBytes32 (encryptedData (image (storage w) i))]
                    processReconstruction_selector) /\
    log w' = log w ++ [ReconstructionRequested i].
Proof.
  intros Hown Hp. rewrite requestReconstruction_eq. cbv zeta.
  rewrite decide_True by done. rewrite Hp.
  eexists. split; [reflexivity|]. done.
Qed.

(** ** Request ids on the library's record *)

Lemma run_onRecord (onRecord : oracle -> Z -> bool) tr w r :
  recordsOnlyIssued onRecord ->
  checksOnRecord onRecord ->
  onRecord (fhe (run tr w)) r = true ->
  onRecord (fhe w) r = true \/ r ∈ issuedIds tr w.
Proof.
  intros Hreq Hchk. revert w.
  induction tr as [|[c k] tr IH]; intros w Hon; cbn [run issuedIds] in *; [by left|].
  destruct (IH _ Hon) as [Hnow | Hlater]; [|right; apply elem_of_app; by right].
  clear IH Hon. revert Hnow. unfold succeeds, transact, call.
  destruct k as [data | j | r0 ct pf].
  - rewrite uploadEncryptedImage_eq. cbv zeta. case_decide; by left.
  - rewrite requestReconstruction_eq. cbv zeta.
    case_decide; [|by left].
    destruct (isProcessed (image (storage w) j)); [by left|].
    cbn [fhe]. intros Hnow. destruct (Hreq _ _ _ _ Hnow) as [-> | Hold]; [|by left].
    right. apply elem_of_app. left. by apply list_elem_of_singleton.
  - rewrite processReconstruction_eq. cbv zeta.
    destruct (checkSignatures (fhe w) r0 ct pf) as [o'|] eqn:Hsig; [|by left].
    destruct (abi_decode_uint32 ct); [|by left].
    cbn [fhe]. intros Hnow. left. by apply (Hchk _ _ _ _ _ Hsig).
Qed.

(** ** The flag of a slot outside the records *)



(** ** The claims, continued *)

(** C2.  With an FHE library that keeps its requests on record (it
    puts on record only the ids it issues, and [FHE.checkSignatures]
    reverts for an id that is not on record), [processReconstruction]
    with a request id that no accepted [requestReconstruction] of the
    trace was issued fails with the library's revert, for every
    cleartext and proof, and modifies nothing: the world after the call
    is the world before it, so no processed flag changes and no
    [ReconstructionResult] is created. *)
Theorem unissued_callback_rejected (onRecord : oracle -> Z -> bool) tr o r c ct pf :
  recordsOnlyIssued onRecord ->
  checksOnRecord onRecord ->
  (forall r', onRecord o r' = false) ->
  r ∉ issuedIds tr (deployed o) ->
  let w := run tr (deployed o) in
  processReconstruction c r ct pf w = Revert LibraryRevert /\
  transact c (ProcessReconstruction r ct pf) w = w.
Proof.
  intros Hreq Hchk Hfresh Hnot. cbv zeta.
  unfold transact, call. rewrite processReconstruction_eq. cbv zeta.
  destruct (checkSignatures (fhe (run tr (deployed o))) r ct pf) as [o'|] eqn:Hsig; [|done].
  destruct (Hchk _ _ _ _ _ Hsig) as [Hon _].
  destruct (run_onRecord onRecord tr (deployed o) r Hreq Hchk Hon) as [Hold | Hin].
  - cbn in Hold. by rewrite Hfresh in Hold.
  - done.
Qed.


(** C7 (the code departs from the claim).  The request id that the
    library issues for a record is dropped by [requestReconstruction],
    and [processReconstruction] files the result under the request id
    of the callback.  So when the owner's request on record [i] is
    issued an id [r] other than [i] and the callback for [r] is
    accepted, the owner's [getReconstructionResult] on [i] still fails
    with "Reconstruction not completed": it is slot [r] that is flagged
    and holds the result. *)
Theorem callback_flags_request_id c i w c' ct pf :
  let r := fst (requestDecryption (fhe w)
                  [toBytes32 (encryptedData (image (storage w) i))]
                  processReconstruction_selector) in
  let w1 := transact c (RequestReconstruction i) w in
  let w2 := transact c' (ProcessReconstruction r ct pf) w1 in
  owner (image (storage w) i) = msg_sender c ->
  isProcessed (image (storage w) i) = false ->
  r <> i ->
  succeeds c' (ProcessReconstruction r ct pf) w1 = true ->
  issuedIds [(c, RequestReconstruction i)] w = [r] /\
  getReconstructionResult c i (storage w2) = Revert NotReady /\
  isProcessed (image (storage w2) r) = true /\
  is_Some (reconstructionResults (storage w2) !! r).
Proof.
  cbv zeta. intros Hown Hp Hne.
  set (r := fst (requestDecryption _ _ _)) in *.
  cbn [issuedIds]. unfold succeeds, transact, call.
  rewrite requestReconstruction_eq. cbv zeta.
  rewrite decide_True by done. rewrite Hp. fold r.
  rewrite processReconstruction_eq. cbv zeta. cbn [storage fhe].
  destruct (checkSignatures _ r ct pf) as [o'|]; [|done].
  destruct (abi_decode_uint32 ct) as [v|]; [|done].
  intros _. cbn [storage reconstructionResults].
  split; [done|]. split; [|split].
  - unfold getReconstructionResult, onlyImageOwner.
    rewrite image_after_write. destruct (decide (r = i)); [done|].
    fold (image (storage w) i). rewrite decide_True by done. by rewrite Hp.
  - rewrite image_after_write. by rewrite decide_True.
  - rewrite lookup_insert_eq. by eexists.
Qed.

End Properties.

(** * The contract on concrete traces *)

(** C1, as stated, fails: with the request-table library, after Alice's
    upload and first request (both accepted, no callback yet) her
    second request on the same id is accepted too. *)
Lemma duplicate_request_accepted :
  accepted (H := TableHost) requestedOnce tableStart = requestedOnce /\
  succeeds (H := TableHost) alice (RequestReconstruction 1)
    (run (H := TableHost) requestedOnce tableStart) = true.
Proof. split; vm_compute; reflexivity. Qed.

Lemma requestReconstruction_repeatable_witness :
  requestReconstruction (H := TableHost) alice 1
    (run (H := TableHost) uploadedOnly tableStart)
  = Ok (tt, run (H := TableHost) requestedOnce tableStart) /\
  exists w2,
    requestReconstruction (H := TableHost) alice 1
      (run (H := TableHost) requestedOnce tableStart) = Ok (tt, w2) /\
    storage w2 = storage (run (H := TableHost) uploadedOnly tableStart) /\
    isProcessed (image (storage w2) 1) = false /\
    log w2 = log (run (H := TableHost) uploadedOnly tableStart)
             ++ [ReconstructionRequested 1; ReconstructionRequested 1].
Proof.
  split; [vm_compute; reflexivity|].
  apply (requestReconstruction_repeatable (H := TableHost) alice 1
           (run (H := TableHost) uploadedOnly tableStart)
           (run (H := TableHost) requestedOnce tableStart)).
  vm_compute; reflexivity.
Defined.

(** C3, as stated, fails: with the request-table library, record 1 is
    processed with result handle 1007; a second callback for the same
    id with another cleartext is accepted and the stored result becomes
    1009 with a new timestamp. *)
Lemma second_completion_accepted :
  isProcessed (image (storage (run (H := TableHost) completedOnce tableStart)) 1) = true /\
  reconstructionResults (storage (run (H := TableHost) completedOnce tableStart)) !! 1
    = Some (mkResult 1 1007 300) /\
  succeeds (H := TableHost) bob (ProcessReconstruction 1 (word Byte.x09) goodProof)
    (run (H := TableHost) completedOnce tableStart) = true /\
  reconstructionResults
    (storage (transact (H := TableHost) bob
                (ProcessReconstruction 1 (word Byte.x09) goodProof)
                (run (H := TableHost) completedOnce tableStart))) !! 1
    = Some (mkResult 1 1009 200).
Proof. repeat split; vm_compute; reflexivity. Qed.

Lemma processReconstruction_overwrites_witness :
  exists w',
    processReconstruction (H := TableHost) bob 1 (word Byte.x09) goodProof
      (run (H := TableHost) completedOnce tableStart) = Ok (tt, w') /\
    reconstructionResults (storage w') !! 1 = Some (mkResult 1 1009 200) /\
    isProcessed (image (storage w') 1) = true.
Proof.
  apply (processReconstruction_overwrites (H := TableHost) bob 1 (word Byte.x09)
           goodProof (run (H := TableHost) completedOnce tableStart)
           (fhe (run (H := TableHost) completedOnce tableStart)) 9);
    vm_compute; reflexivity.
Defined.

Lemma not_owner_rejected_witness :
  requestReconstruction (H := TableHost) bob 1
    (run (H := TableHost) uploadedOnly tableStart) = Revert NotAuthorized /\
  getReconstructionResult bob 1
    (storage (run (H := TableHost) uploadedOnly tableStart)) = Revert NotAuthorized /\
  transact (H := TableHost) bob (RequestReconstruction 1)
    (run (H := TableHost) uploadedOnly tableStart)
  = run (H := TableHost) uploadedOnly tableStart.
Proof.
  apply (not_owner_rejected (H := TableHost) bob 1
           (run (H := TableHost) uploadedOnly tableStart)).
  vm_compute. discriminate.
Defined.

Lemma upload_ids_dense_and_listed_witness :
  imageCount (storage (run (H := TableHost) threeUploads tableStart)) = 3 /\
  uploadedIds (log (run (H := TableHost) threeUploads tableStart)) = [1; 2; 3] /\
  (forall (j : nat) u, creators threeUploads !! j = Some u ->
     id (image (storage (run (H := TableHost) threeUploads tableStart)) (1 + Z.of_nat j))
       = 1 + Z.of_nat j /\
     owner (image (storage (run (H := TableHost) threeUploads tableStart)) (1 + Z.of_nat j))
       = u) /\
  (forall u, getUserImageIds u (storage (run (H := TableHost) threeUploads tableStart))
             = Ok (idsCreatedBy u 1 [10; 20; 10])).
Proof.
  apply (upload_ids_dense_and_listed (H := TableHost) threeUploads (mkTable 0 ∅)).
  unfold UINT256_MAX. cbn. lia.
Defined.

(** The request-table library keeps its requests on record. *)
Lemma tableOnRecord_request : recordsOnlyIssued (H := TableHost) tableOnRecord.
Proof.
  intros o cts sel r. cbn. unfold tableOnRecord. cbn.
  rewrite !bool_decide_eq_true, lookup_insert. case_decide; auto.
Qed.

Lemma tableOnRecord_check : checksOnRecord (H := TableHost) tableOnRecord.
Proof.
  intros o r ct pf o'. cbn. unfold tableOnRecord.
  destruct (requestedHandles o !! r) as [cts|] eqn:Hr; [|done].
  case_decide; [|done]. intros [= <-].
  split; [apply bool_decide_eq_true; by eexists | done].
Qed.

Lemma tableOnRecord_fresh r : tableOnRecord (mkTable 0 ∅) r = false.
Proof.
  unfold tableOnRecord. cbn. apply bool_decide_eq_false. rewrite lookup_empty.
  by intros [x Hx].
Qed.

Lemma unissued_callback_rejected_witness :
  processReconstruction (H := TableHost) relayer 1 (word Byte.x07) goodProof
    (run (H := TableHost) requestedOnce (deployed (H := TableHost) (mkTable 0 ∅)))
  = Revert LibraryRevert /\
  transact (H := TableHost) relayer (ProcessReconstruction 1 (word Byte.x07) goodProof)
    (run (H := TableHost) requestedOnce (deployed (H := TableHost) (mkTable 0 ∅)))
  = run (H := TableHost) requestedOnce (deployed (H := TableHost) (mkTable 0 ∅)).
Proof.
  apply (unissued_callback_rejected (H := TableHost) tableOnRecord requestedOnce
           (mkTable 0 ∅) 1 relayer (word Byte.x07) goodProof
           tableOnRecord_request tableOnRecord_check tableOnRecord_fresh).
  assert (Hids : issuedIds (H := TableHost) requestedOnce
                   (deployed (H := TableHost) (mkTable 0 ∅)) = [0])
    by (vm_compute; reflexivity).
  rewrite Hids. intros Hin. apply list_elem_of_singleton in Hin. discriminate.
Defined.


(** C7 on the request-table library: Alice uploads record 1, her
    request is issued id 0 and the callback for id 0 is accepted; her
    read of record 1 still fails, and the result sits under id 0. *)
Lemma callback_flags_request_id_witness :
  issuedIds (H := TableHost) [(alice, RequestReconstruction 1)]
    (run (H := TableHost) uploadedOnly tableStart) = [0] /\
  getReconstructionResult alice 1 (storage (run (H := TableHost) honestFlow tableStart))
  = Revert NotReady /\
  isProcessed (image (storage (run (H := TableHost) honestFlow tableStart)) 0) = true /\
  is_Some (reconstructionResults (storage (run (H := TableHost) honestFlow tableStart)) !! 0).
Proof.
  pose proof (callback_flags_request_id (H := TableHost) alice 1
                (run (H := TableHost) uploadedOnly tableStart)
                relayer (word Byte.x07) goodProof) as Hflow.
  cbv zeta in Hflow.
  assert (Hown : owner (image (storage (run (H := TableHost) uploadedOnly tableStart)) 1)
                 = msg_sender alice) by (vm_compute; reflexivity).
  assert (Hp : isProcessed (image (storage (run (H := TableHost) uploadedOnly tableStart)) 1)
               = false) by (vm_compute; reflexivity).
  specialize (Hflow Hown Hp ltac:(vm_compute; discriminate) ltac:(vm_compute; reflexivity)).
  vm_compute in Hflow. vm_compute. exact Hflow.
Defined.


(** C8 (the code departs from the claim).  With the request-table
    library the callback for request id 2, issued for Alice's third
    request on record 1, is accepted while only record 1 exists: slot 2
    is flagged processed and a result is stored under 2.  Bob's upload
    then creates record 2 with the flag false, while the result stored
    under 2 is still there: a result without a processed record, and a
    flag that went from true to false. *)
Lemma processed_flag_reset_by_upload :
  accepted (H := TableHost) callbackAhead tableStart = callbackAhead /\
  isProcessed (image (storage (run (H := TableHost) callbackAhead tableStart)) 2) = true /\
  succeeds (H := TableHost) bob (UploadEncryptedImage 6)
    (run (H := TableHost) callbackAhead tableStart) = true /\
  isProcessed
    (image (storage (transact (H := TableHost) bob (UploadEncryptedImage 6)
                       (run (H := TableHost) callbackAhead tableStart))) 2) = false /\
  owner
    (image (storage (transact (H := TableHost) bob (UploadEncryptedImage 6)
                       (run (H := TableHost) callbackAhead tableStart))) 2) = 20 /\
  reconstructionResults
    (storage (transact (H := TableHost) bob (UploadEncryptedImage 6)
                (run (H := TableHost) callbackAhead tableStart))) !! 2
  = Some (mkResult 2 1007 300).
Proof. repeat split; vm_compute; reflexivity. Qed.

(** C9 (the code departs from the claim).  With the request-table
    library every call of the trace is accepted, no
    [requestReconstruction] was ever made on record 1 (both requests
    are Bob's, on record 2, and are issued request ids 0 and 1), and
    the callback for request id 1 completes Alice's record 1. *)
Lemma completed_without_request :
  accepted (H := TableHost) crossedCallback tableStart = crossedCallback /\
  requestsFor 1 crossedCallback = [] /\
  owner (image (storage (run (H := TableHost) crossedCallback tableStart)) 1) = 10 /\
  isProcessed (image (storage (run (H := TableHost) crossedCallback tableStart)) 1) = true /\
  reconstructionResults (storage (run (H := TableHost) crossedCallback tableStart)) !! 1
  = Some (mkResult 1 1007 300).
Proof. repeat split; vm_compute; reflexivity. Qed.

Lemma requestReconstruction_frame_witness :
  exists w',
    requestReconstruction (H := TableHost) alice 1
      (run (H := TableHost) uploadedOnly tableStart) = Ok (tt, w') /\
    storage w' = storage (run (H := TableHost) uploadedOnly tableStart) /\
    fhe w' = mkTable 1 {[ 0 := [5] ]} /\
    log w' = [ImageUploaded 1 10 100; ReconstructionRequested 1].
Proof.
  apply (requestReconstruction_frame (H := TableHost) alice 1
           (run (H := TableHost) uploadedOnly tableStart));
    vm_compute; reflexivity.
Defined.

(** * Further properties of the contract *)

Section Further.
Context {H : Host}.
Implicit Types (w : World H) (c : Ctx) (s : State) (k : Call) (i : Z).

Ltac step_call k w :=
  unfold transact, succeeds, call;
  destruct k as [data | j | r ct pf];
  [ rewrite uploadEncryptedImage_eq; cbv zeta; case_decide
  | rewrite requestReconstruction_eq; cbv zeta; case_decide;
    [ destruct (isProcessed (image (storage w) j)) eqn:? | ]
  | rewrite processReconstruction_eq; cbv zeta;
    destruct (checkSignatures (fhe w) r ct pf) eqn:?;
    [ destruct (abi_decode_uint32 ct) eqn:? | ] ];
  cbn [storage fhe log imageCount encryptedImages reconstructionResults
       userImages fst snd].

(** ** The counter *)

Lemma transact_countInRange c k w :
  countInRange (storage w) -> countInRange (storage (transact c k w)).
Proof.
  unfold countInRange. intros Hr. step_call k w; try done. lia.
Qed.

Lemma run_countInRange tr w :
  countInRange (storage w) -> countInRange (storage (run tr w)).
Proof.
  revert w. induction tr as [|[c k] tr IH]; intros w Hw; cbn; [done|].
  by apply IH, transact_countInRange.
Qed.

Lemma run_count_accepted tr w :
  imageCount (storage (run tr w)) =
  imageCount (storage w) + Z.of_nat (length (creators (accepted tr w))).
Proof.
  revert w. induction tr as [|[c k] tr IH]; intros w; cbn [run accepted].
  - cbn. lia.
  - rewrite IH. clear IH. step_call k w; cbn [app creators length]; lia.
Qed.

(** X1.  In every state reached from deployment [imageCount] fits
    [uint256] and equals the number of uploads accepted so far; an
    upload is refused exactly when the counter has reached its
    maximum, whoever calls and whatever the ciphertext handle. *)
Theorem imageCount_counts_uploads tr o :
  let w := run tr (deployed o) in
  0 <= imageCount (storage w) <= UINT256_MAX /\
  imageCount (storage w) = Z.of_nat (length (creators (accepted tr (deployed o)))) /\
  (forall c data,
     succeeds c (UploadEncryptedImage data) w = false <->
     imageCount (storage w) = UINT256_MAX).
Proof.
  cbv zeta. split; [|split].
  - apply run_countInRange. unfold countInRange, UINT256_MAX. cbn. lia.
  - rewrite run_count_accepted. cbn. lia.
  - intros c data. unfold succeeds, call. rewrite uploadEncryptedImage_eq. cbv zeta.
    case_decide; split; intros; done.
Qed.

(** ** What one call writes and what it leaves alone *)

Lemma imagesOf_after_write n m rs us a l u :
  imagesOf (mkState n m rs (<[a := l]> us)) u =
  if decide (a = u) then l else default [] (us !! u).
Proof.
  unfold imagesOf; cbn. rewrite lookup_insert. by case_decide.
Qed.

(** X2.  A successful upload takes the next id [n = imageCount + 1]
    and writes a fresh unprocessed record there, with the caller as
    owner and the timestamp of the block (whatever the slot held
    before); every other record, every result, the index of every other
    user and the library state are untouched, the caller's index gains
    [n] at its end, and one [ImageUploaded] event is logged. *)
Theorem uploadEncryptedImage_frame c data w w' :
  uploadEncryptedImage c data w = Ok (tt, w') ->
  let n := imageCount (storage w) + 1 in
  imageCount (storage w') = n /\
  image (storage w') n = mkImage n (msg_sender c) data (block_timestamp c) false /\
  (forall j, j <> n -> image (storage w') j = image (storage w) j) /\
  reconstructionResults (storage w') = reconstructionResults (storage w) /\
  imagesOf (storage w') (msg_sender c) = imagesOf (storage w) (msg_sender c) ++ [n] /\
  (forall u, u <> msg_sender c -> imagesOf (storage w') u = imagesOf (storage w) u) /\
  fhe w' = fhe w /\
  log w' = log w ++ [ImageUploaded n (msg_sender c) (block_timestamp c)].
Proof.
  rewrite uploadEncryptedImage_eq. cbv zeta. case_decide; [done|].
  intros [= <-]. cbn [storage fhe log imageCount reconstructionResults].
  split; [done|]. split; [|split].
  - rewrite image_after_write. by rewrite decide_True.
  - intros j Hj. rewrite image_after_write. by rewrite decide_False.
  - split; [done|]. rewrite imagesOf_after_write. rewrite decide_True by done.
    split; [done|]. split; [|done].
    intros u Hu. rewrite imagesOf_after_write. by rewrite decide_False.
Qed.

(** X3.  A successful callback for request id [r] stores the result
    under [r] and sets the processed flag of slot [r]; it changes
    nothing else: [imageCount], the owner index, the id, owner,
    ciphertext handle and timestamp of slot [r], and every record and
    result under another id are as before.  One
    [ReconstructionCompleted] event is logged. *)
Theorem processReconstruction_frame c r ct pf w w' :
  processReconstruction c r ct pf w = Ok (tt, w') ->
  imageCount (storage w') = imageCount (storage w) /\
  userImages (storage w') = userImages (storage w) /\
  image (storage w') r = markImageProcessed (image (storage w) r) /\
  imageId (result (storage w') r) = r /\
  resultTimestamp (result (storage w') r) = block_timestamp c /\
  (forall j, j <> r ->
     image (storage w') j = image (storage w) j /\
     reconstructionResults (storage w') !! j = reconstructionResults (storage w) !! j) /\
  log w' = log w ++ [ReconstructionCompleted r (block_timestamp c)].
Proof.
  rewrite processReconstruction_eq. cbv zeta.
  destruct (checkSignatures (fhe w) r ct pf) as [o'|]; [|done].
  destruct (abi_decode_uint32 ct) as [v|]; [|done].
  intros [= <-]. cbn [storage log imageCount userImages].
  split; [done|]. split; [done|]. split.
  { rewrite image_after_write. by rewrite decide_True. }
  unfold result. cbn [reconstructionResults]. rewrite lookup_insert_eq.
  cbn [default imageId resultTimestamp].
  split; [done|]. split; [done|]. split; [|done].
  intros j Hj. rewrite image_after_write. rewrite decide_False by done.
  split; [done|]. by rewrite lookup_insert_ne.
Qed.

(** X12.  Reads of a result are isolated: for a record that exists,
    what [getReconstructionResult] returns to any caller is unchanged
    by every call other than a callback for that very id (uploads,
    requests, callbacks for other ids, reverted calls). *)
Theorem getReconstructionResult_isolated c' k w c i :
  1 <= i <= imageCount (storage w) ->
  (forall ct pf, k <> ProcessReconstruction i ct pf) ->
  getReconstructionResult c i (storage (transact c' k w)) =
  getReconstructionResult c i (storage w).
Proof.
  intros Hi Hk.
  step_call k w; try done; unfold getReconstructionResult, onlyImageOwner, result.
  - rewrite image_after_write.
    destruct (decide (imageCount (storage w) + 1 = i)); [lia | done].
  - rewrite image_after_write.
    destruct (decide (r = i)) as [->|Hne]; [by destruct (Hk ct pf)|].
    cbn [reconstructionResults]. by rewrite lookup_insert_ne.
Qed.

(** ** Records over whole traces *)

Lemma run_processed_stable tr w i :
  1 <= i <= imageCount (storage w) ->
  isProcessed (image (storage w) i) = true ->
  isProcessed (image (storage (run tr w)) i) = true.
Proof.
  revert w. induction tr as [|[c k] tr IH]; intros w Hi Hp; cbn; [done|].
  pose proof (transact_count_mono c k w).
  apply IH; [lia|]. by apply transact_processed_stable.
Qed.

(** X4.  A record is immutable apart from its flag: once a record
    exists, no sequence of calls changes its id, owner, ciphertext
    handle or timestamp. *)
Theorem record_fields_immutable tr w i :
  1 <= i <= imageCount (storage w) ->
  id (image (storage (run tr w)) i) = id (image (storage w) i) /\
  owner (image (storage (run tr w)) i) = owner (image (storage w) i) /\
  encryptedData (image (storage (run tr w)) i) = encryptedData (image (storage w) i) /\
  timestamp (image (storage (run tr w)) i) = timestamp (image (storage w) i).
Proof.
  revert w. induction tr as [|[c k] tr IH]; intros w Hi; cbn; [done|].
  pose proof (transact_count_mono c k w).
  destruct (transact_keeps_record c k w i Hi) as (Hid & Hown & Hdata & Hts).
  rewrite <- Hid, <- Hown, <- Hdata, <- Hts. apply IH. lia.
Qed.

(** X5.  Completion is final for the owner: once an existing record
    is processed, then after any further sequence of calls every
    [requestReconstruction] by its owner fails with "Image already
    processed", and [getReconstructionResult] by its owner returns a
    result. *)
Theorem processed_record_stays_closed tr w c i :
  1 <= i <= imageCount (storage w) ->
  isProcessed (image (storage w) i) = true ->
  owner (image (storage w) i) = msg_sender c ->
  requestReconstruction c i (run tr w) = Revert AlreadyProcessed /\
  getReconstructionResult c i (storage (run tr w)) =
    Ok (encryptedResult (result (storage (run tr w)) i)).
Proof.
  intros Hi Hp Hown.
  pose proof (run_processed_stable tr w i Hi Hp) as Hp'.
  destruct (record_fields_immutable tr w i Hi) as (_ & Hown' & _).
  rewrite requestReconstruction_eq. cbv zeta.
  unfold getReconstructionResult, onlyImageOwner.
  rewrite !decide_True by congruence. by rewrite Hp'.
Qed.

(** X6.  An id under which no record was created is closed to every
    caller with a non-zero address: in every state reached from
    deployment both [requestReconstruction] and
    [getReconstructionResult] fail with "Not image owner", even if a
    callback has been accepted for that id. *)
Theorem unknown_id_not_authorized tr o c i :
  let w := run tr (deployed o) in
  ~ (1 <= i <= imageCount (storage w)) ->
  msg_sender c <> 0 ->
  requestReconstruction c i w = Revert NotAuthorized /\
  getReconstructionResult c i (storage w) = Revert NotAuthorized.
Proof.
  cbv zeta. intros Hout Hc.
  destruct (run_blankOutside tr (deployed o) (deployed_blankOutside o)) as [_ Hblank].
  destruct (Hblank i Hout) as [Hown _].
  rewrite requestReconstruction_eq. cbv zeta.
  unfold getReconstructionResult, onlyImageOwner.
  rewrite !decide_False by congruence. done.
Qed.

(** ** The owner index *)

Lemma transact_ownerIndexed c k w :
  0 <= imageCount (storage w) ->
  ownerIndexed (storage w) -> ownerIndexed (storage (transact c k w)).
Proof.
  unfold ownerIndexed. intros Hn Hinv. step_call k w; try done.
  - intros u. destruct (Hinv u) as [Hsorted Hmem].
    rewrite imagesOf_after_write. case_decide as Hu.
    + subst u. split.
      * apply StronglySorted_app_2; [|done|repeat constructor].
        intros x1 x2 Hx1 Hx2. apply list_elem_of_singleton in Hx2 as ->.
        apply Hmem in Hx1. lia.
      * intros i. rewrite elem_of_app, list_elem_of_singleton, image_after_write.
        rewrite Hmem. case_decide; [subst i; cbn; intuition lia | intuition lia].
    + split; [done|]. intros i. rewrite image_after_write. fold (imagesOf (storage w) u).
      rewrite Hmem. case_decide; [subst i; cbn; intuition (try lia; congruence) | intuition lia].
  - intros u. destruct (Hinv u) as [Hsorted Hmem]. split; [done|].
    intros i. rewrite image_after_write. unfold imagesOf in *. cbn [userImages].
    rewrite Hmem. case_decide; [by subst | done].
Qed.

Lemma run_ownerIndexed tr w :
  0 <= imageCount (storage w) ->
  ownerIndexed (storage w) -> ownerIndexed (storage (run tr w)).
Proof.
  revert w. induction tr as [|[c k] tr IH]; intros w Hn Hw; cbn; [done|].
  apply IH; [|by apply transact_ownerIndexed].
  pose proof (transact_count_mono c k w). lia.
Qed.

(** X7.  The owner index and the records agree: in every state
    reached from deployment, the list returned by [getUserImageIds u]
    is strictly increasing (so without duplicates) and contains exactly
    the ids of the existing records whose owner is [u]. *)
Theorem owner_index_matches_records tr o u :
  let w := run tr (deployed o) in
  exists ids,
    getUserImageIds u (storage w) = Ok ids /\
    StronglySorted Z.lt ids /\
    forall i, i ∈ ids <->
              1 <= i <= imageCount (storage w) /\ owner (image (storage w) i) = u.
Proof.
  cbv zeta.
  destruct (run_ownerIndexed tr (deployed o)) with (u := u) as [Hsorted Hmem].
  - done.
  - intros u'. split; [constructor|]. intros i. cbn.
    rewrite elem_of_nil. intuition lia.
  - eexists. split; [reflexivity|]. done.
Qed.

(** ** The event log *)

(** ** Results *)

Lemma lastCallback_app i tr1 tr2 :
  lastCallback i (tr1 ++ tr2) =
  match lastCallback i tr2 with
  | Some x => Some x
  | None => lastCallback i tr1
  end.
Proof.
  induction tr1 as [|ck tr1 IH]; cbn.
  - by destruct (lastCallback i tr2).
  - rewrite IH. by destruct (lastCallback i tr2).
Qed.

(** X9.  The last accepted callback wins: after any sequence of
    calls the result stored under an id is the one written by the last
    accepted callback for that id (the handle of its decoded cleartext
    and the timestamp of its block), and is what it was before when no
    callback for that id was accepted. *)
Theorem result_is_last_callback tr w i :
  reconstructionResults (storage (run tr w)) !! i =
  match lastCallback i (accepted tr w) with
  | Some (c, ct) =>
      (fun v => mkResult i (asEuint32 v) (block_timestamp c)) <$> abi_decode_uint32 ct
  | None => reconstructionResults (storage w) !! i
  end.
Proof.
  revert w. induction tr as [|[c k] tr IH]; intros w; cbn [run accepted]; [done|].
  rewrite lastCallback_app, IH. clear IH.
  destruct (lastCallback i (accepted tr (transact c k w))) as [[c0 ct0]|]; [done|].
  unfold succeeds, transact, call. destruct k as [data | j | r ct pf].
  - rewrite uploadEncryptedImage_eq. cbv zeta. by case_decide.
  - rewrite requestReconstruction_eq. cbv zeta.
    case_decide; [|done]. by destruct (isProcessed (image (storage w) j)).
  - rewrite processReconstruction_eq. cbv zeta.
    destruct (checkSignatures (fhe w) r ct pf) as [o'|]; [|done].
    destruct (abi_decode_uint32 ct) as [v|] eqn:Hdec; [|done].
    cbn [storage reconstructionResults app lastCallback callbackFor].
    rewrite lookup_insert. case_decide; [|done].
    subst r. by rewrite Hdec.
Qed.

Lemma be_value_nonneg bs acc : 0 <= acc -> 0 <= be_value bs acc.
Proof.
  revert acc. induction bs as [|b bs IH]; intros acc Hacc; cbn; [done|].
  apply IH. lia.
Qed.

(** X10.  A callback whose cleartexts are shorter than one 32-byte
    word always reverts; and the value whose handle an accepted
    callback stores always fits [uint32]. *)
Theorem processReconstruction_cleartext_bounds c r ct pf w :
  ((length ct < 32)%nat ->
   succeeds c (ProcessReconstruction r ct pf) w = false) /\
  (forall w', processReconstruction c r ct pf w = Ok (tt, w') ->
     (32 <= length ct)%nat /\
     exists v, 0 <= v <= UINT32_MAX /\
               encryptedResult (result (storage w') r) = asEuint32 v).
Proof.
  unfold succeeds, call. rewrite processReconstruction_eq. cbv zeta.
  unfold abi_decode_uint32.
  destruct (checkSignatures (fhe w) r ct pf) as [o'|]; [|split; [done | intros w' [=]]].
  destruct (Nat.ltb_spec (length ct) 32) as [Hshort|Hlong].
  - split; [done | intros w' [=]].
  - split; [lia|]. cbv zeta.
    destruct (Z.leb_spec (be_value (take 32 ct) 0) UINT32_MAX) as [Hfit|Hbig];
      [|intros w' [=]].
    intros w' [= <-]. split; [done|].
    exists (be_value (take 32 ct) 0). split; [split; [by apply be_value_nonneg | done]|].
    unfold result. cbn. by rewrite lookup_insert_eq.
Qed.

(** ** Uploads and what is read back *)

Lemma transact_eventHolds c k w e :
  eventHolds (storage w) e -> eventHolds (storage (transact c k w)) e.
Proof.
  intros He. step_call k w; try done.
  - destruct e as [i own ts | i | i ts]; cbn in *; [|done|done].
    rewrite image_after_write. rewrite decide_False by lia.
    split; [lia | by destruct He].
  - destruct e as [i own ts | i | i ts]; cbn in *; [|done|].
    + rewrite image_after_write. case_decide; [by subst | done].
    + rewrite lookup_insert. case_decide; [by eexists | done].
Qed.

Lemma transact_logMatches c k w :
  0 <= imageCount (storage w) ->
  (forall e, e ∈ log w -> eventHolds (storage w) e) ->
  forall e, e ∈ log (transact c k w) -> eventHolds (storage (transact c k w)) e.
Proof.
  intros Hn Hlog e He.
  assert (Hcases : e ∈ log w \/
            (succeeds c k w = true /\ log (transact c k w) = log w ++ [e])).
  { revert He. step_call k w; try (by left).
    all: rewrite elem_of_app, list_elem_of_singleton; intros [?| ->]; [by left | by right]. }
  destruct Hcases as [Hold | [Hok Hnew]].
  - by apply transact_eventHolds, Hlog.
  - clear He Hlog. revert Hok Hnew. step_call k w; try done; intros _ Hnew.
    all: apply app_inv_head in Hnew; injection Hnew as <-; cbn.
    + rewrite image_after_write. rewrite decide_True by done. cbn. split; [lia | done].
    + done.
    + by rewrite lookup_insert_eq.
Qed.

Lemma run_logMatches tr w :
  0 <= imageCount (storage w) ->
  (forall e, e ∈ log w -> eventHolds (storage w) e) ->
  forall e, e ∈ log (run tr w) -> eventHolds (storage (run tr w)) e.
Proof.
  revert w. induction tr as [|[c k] tr IH]; intros w Hn Hw; cbn; [done|].
  apply IH; [|by apply transact_logMatches].
  pose proof (transact_count_mono c k w). lia.
Qed.

Lemma run_uploads_recorded tr w (j : nat) c data :
  0 <= imageCount (storage w) ->
  uploadsOf (accepted tr w) !! j = Some (c, data) ->
  image (storage (run tr w)) (imageCount (storage w) + 1 + Z.of_nat j) =
  mkImage (imageCount (storage w) + 1 + Z.of_nat j) (msg_sender c) data
    (block_timestamp c)
    (isProcessed (image (storage (run tr w)) (imageCount (storage w) + 1 + Z.of_nat j))).
Proof.
  revert w j. induction tr as [|[c0 k] tr IH]; intros w j Hn; cbn [run accepted]; [done|].
  pose proof (transact_count_mono c0 k w) as Hmono.
  assert (IH' := fun j' => IH (transact c0 k w) j' ltac:(lia)).
  clear IH Hmono. revert IH'.
  unfold succeeds, transact, call. destruct k as [data0 | i | r ct pf].
  - rewrite uploadEncryptedImage_eq. cbv zeta. case_decide as Hmax; [by auto|].
    set (w1 := mkWorld _ _ _). intros IH. cbn [app uploadsOf].
    destruct j as [|j']; cbn [lookup list_lookup].
    + intros [= -> ->].
      replace (imageCount (storage w) + 1 + Z.of_nat 0)
        with (imageCount (storage w) + 1) by lia.
      destruct (record_fields_immutable tr w1 (imageCount (storage w) + 1))
        as (Hid & Hown & Hdata & Hts).
      { unfold w1. cbn. lia. }
      destruct (image (storage (run tr w1)) (imageCount (storage w) + 1))
        as [i0 o0 d0 t0 p0].
      cbn in Hid, Hown, Hdata, Hts. revert Hid Hown Hdata Hts.
      unfold w1. cbn [storage]. rewrite image_after_write.
      rewrite decide_True by done. cbn. by intros -> -> -> ->.
    + intros Hj.
      replace (imageCount (storage w) + 1 + Z.of_nat (S j'))
        with (imageCount (storage w1) + 1 + Z.of_nat j') by (unfold w1; cbn; lia).
      exact (IH j' Hj).
  - rewrite requestReconstruction_eq. cbv zeta.
    case_decide; [|by auto].
    destruct (isProcessed (image (storage w) i)); [by auto|].
    cbn [app uploadsOf storage]. by auto.
  - rewrite processReconstruction_eq. cbv zeta.
    destruct (checkSignatures (fhe w) r ct pf); [|by auto].
    destruct (abi_decode_uint32 ct); [|by auto].
    cbn [app uploadsOf storage imageCount]. by auto.
Qed.

(** X11.  What an upload stores is what is read back, for good: if
    the [j]-th accepted upload of a trace from deployment was made by
    [c] with ciphertext handle [data], then in the final state record
    [j + 1] carries that id and handle, [getImageMetadata] returns the
    uploader and the timestamp of the upload, and the uploader passes
    the owner check. *)
Theorem getImageMetadata_of_upload tr o (j : nat) c data :
  uploadsOf (accepted tr (deployed o)) !! j = Some (c, data) ->
  let w := run tr (deployed o) in
  let i := 1 + Z.of_nat j in
  getImageMetadata i (storage w) =
    Ok (msg_sender c, block_timestamp c, isProcessed (image (storage w) i)) /\
  id (image (storage w) i) = i /\
  encryptedData (image (storage w) i) = data /\
  onlyImageOwner c i (storage w) = Ok tt.
Proof.
  intros Hj. cbv zeta.
  pose proof (run_uploads_recorded tr (deployed o) j c data ltac:(done) Hj) as Hrec.
  cbn [deployed storage emptyState imageCount] in Hrec.
  replace (0 + 1 + Z.of_nat j) with (1 + Z.of_nat j) in Hrec by lia.
  unfold getImageMetadata, onlyImageOwner. rewrite Hrec.
  cbn [owner timestamp id encryptedData isProcessed].
  rewrite decide_True by done. done.
Qed.

(** X13.  The log agrees with the storage: in every state reached
    from deployment, each [ImageUploaded i o ts] event in the log names
    an existing record [i] whose owner is [o] and whose timestamp is
    [ts], and each [ReconstructionCompleted i ts] event names an id
    under which a result is stored. *)
Theorem events_match_storage tr o e :
  let w := run tr (deployed o) in
  e ∈ log w ->
  match e with
  | ImageUploaded i own ts =>
      1 <= i <= imageCount (storage w) /\
      owner (image (storage w) i) = own /\ timestamp (image (storage w) i) = ts
  | ReconstructionCompleted i _ => is_Some (reconstructionResults (storage w) !! i)
  | ReconstructionRequested _ => True
  end.
Proof.
  cbv zeta. revert e. apply (run_logMatches tr (deployed o)); [done|].
  intros e He. cbn in He. by apply elem_of_nil in He.
Qed.

(** X14.  The zero address passes the owner check of every id under
    which no record exists (such a slot reads as owner 0): in every
    state reached from deployment a caller with [msg.sender] zero is
    never refused as "Not image owner" there; it can request while the
    slot is not flagged, and reads the stored result once a callback
    for that id has been accepted. *)
Theorem zero_address_owns_unknown_ids tr o c i :
  let w := run tr (deployed o) in
  ~ (1 <= i <= imageCount (storage w)) ->
  msg_sender c = 0 ->
  if isProcessed (image (storage w) i)
  then getReconstructionResult c i (storage w)
       = Ok (encryptedResult (result (storage w) i)) /\
       requestReconstruction c i w = Revert AlreadyProcessed
  else getReconstructionResult c i (storage w) = Revert NotReady /\
       succeeds c (RequestReconstruction i) w = true.
Proof.
  cbv zeta. intros Hout Hc.
  destruct (run_blankOutside tr (deployed o) (deployed_blankOutside o)) as [_ Hblank].
  destruct (Hblank i Hout) as [Hown _].
  unfold succeeds, call. rewrite requestReconstruction_eq. cbv zeta.
  unfold getReconstructionResult, onlyImageOwner.
  rewrite !decide_True by congruence.
  by destruct (isProcessed (image (storage (run tr (deployed o))) i)).
Qed.

(** ** The events of the contract *)

(** X8.  The events declared by the contract ([ImageUploaded],
    [ReconstructionRequested], [ReconstructionCompleted]) follow the
    accepted calls: after any sequence of calls the old log is extended
    by one such event per call that did not revert, in call order, an
    upload announcing its caller and block timestamp, a request its id,
    a callback its request id and block timestamp; a reverted call
    leaves no event. *)
Theorem contract_events_follow_calls tr w :
  exists evs,
    log (run tr w) = log w ++ evs /\
    Forall2 announces (accepted tr w) evs.
Proof.
  revert w. induction tr as [|[c k] tr IH]; intros w; cbn [run accepted].
  - exists []. split; [by rewrite app_nil_r | constructor].
  - destruct (IH (transact c k w)) as (evs & Hlog & Hall). rewrite Hlog. clear IH Hlog.
    revert Hall. step_call k w; intros Hall; cbn [app];
      try (exists evs; by split).
    all: eexists (_ :: evs); split; [by rewrite <- app_assoc|];
      constructor; [done | exact Hall].
Qed.

(** ** Flags and results *)

Lemma transact_resultsWithinCount c k w :
  match k with
  | ProcessReconstruction r _ _ =>
      succeeds c k w = true -> r <= imageCount (storage w)
  | _ => True
  end ->
  resultsWithinCount (storage w) ->
  resultsWithinCount (storage (transact c k w)).
Proof.
  unfold resultsWithinCount. intros Hg Hinv. revert Hg.
  step_call k w; intros Hg; try done.
  - intros i Hi. destruct (Hinv i Hi) as [Hr Hp].
    split; [lia|]. rewrite image_after_write. case_decide; [lia | done].
  - specialize (Hg eq_refl). intros i. rewrite lookup_insert, image_after_write.
    case_decide; [by subst | apply Hinv].
Qed.

Lemma run_resultsWithinCount tr w :
  callbacksWithinCount tr w ->
  resultsWithinCount (storage w) ->
  resultsWithinCount (storage (run tr w)).
Proof.
  revert w. induction tr as [|[c k] tr IH]; intros w Hg Hinv; cbn in *; [done|].
  destruct Hg as [Hk Hrest]. apply IH; [done|].
  by apply transact_resultsWithinCount.
Qed.

(** X15.  In every state reached from deployment a slot whose
    processed flag is true has a [ReconstructionResult] stored under
    its id, and no call turns the processed flag of a record that
    exists (1 <= id <= imageCount) from true to false.  Conversely a
    stored result implies a true flag along every trace in which the
    request id of each accepted callback does not exceed [imageCount]
    at that moment. *)
Theorem processed_and_results tr o :
  let w := run tr (deployed o) in
  (forall i, isProcessed (image (storage w) i) = true ->
             is_Some (reconstructionResults (storage w) !! i)) /\
  (forall c k i, 1 <= i <= imageCount (storage w) ->
             isProcessed (image (storage w) i) = true ->
             isProcessed (image (storage (transact c k w)) i) = true) /\
  (callbacksWithinCount tr (deployed o) ->
   forall i, is_Some (reconstructionResults (storage w) !! i) <->
             isProcessed (image (storage w) i) = true).
Proof.
  cbv zeta.
  pose proof (run_processedHasResult tr (deployed o) (deployed_processedHasResult o)) as Hpr.
  split; [exact Hpr|]. split.
  - intros c k i. apply transact_processed_stable.
  - intros Hg i. split; [|apply Hpr].
    intros Hres. eapply run_resultsWithinCount; [exact Hg | | exact Hres].
    intros j [x Hx]. done.
Qed.

(** X16.  Only a callback completes a slot: in every state reached
    from deployment, if the processed flag of an id is true or a
    result is stored under it, then the trace contains an accepted
    [processReconstruction] whose request id is that id. *)
Theorem completed_only_by_callback tr o i :
  let w := run tr (deployed o) in
  isProcessed (image (storage w) i) = true \/
  is_Some (reconstructionResults (storage w) !! i) ->
  exists c ct pf, (c, ProcessReconstruction i ct pf) ∈ accepted tr (deployed o).
Proof.
  cbv zeta.
  intros [Hp | Hres].
  - destruct (run_processed_by_callback tr (deployed o) i Hp) as [Habs|Hin]; done.
  - destruct (run_result_by_callback tr (deployed o) i Hres) as [[x Habs]|Hin]; done.
Qed.

(** ** Decoding the cleartext *)

Lemma byteOf_value n : Z.of_N (Byte.to_N (byteOf n)) = n mod 256.
Proof.
  unfold byteOf. pose proof (Z.mod_pos_bound n 256 ltac:(lia)) as Hb.
  destruct (Byte.of_N (Z.to_N (n mod 256))) as [b|] eqn:Hof;
    cbn [default from_option Datatypes.id].
  - apply Byte.to_of_N in Hof. rewrite Hof. lia.
  - apply Byte.of_N_None_iff in Hof. lia.
Qed.

Lemma abi_decode_encode v extra :
  0 <= v <= UINT32_MAX ->
  abi_decode_uint32 (abi_encode_uint32 v ++ extra) = Some v.
Proof.
  intros Hv. unfold abi_decode_uint32, abi_encode_uint32.
  rewrite length_app. cbn [length replicate app Nat.add Nat.ltb Nat.leb].
  cbn [take be_value]. rewrite !byteOf_value.
  match goal with |- context [if ?x <=? UINT32_MAX then _ else _] =>
    assert (Heq : x = v) end.
  { unfold UINT32_MAX in Hv. change (2 ^ 32 - 1) with 4294967295 in Hv.
    cbn. rewrite firstn_O. cbn [be_value].
    change (2 ^ 24) with 16777216. change (2 ^ 16) with 65536. change (2 ^ 8) with 256.
    Z.div_mod_to_equations. lia. }
  rewrite Heq. destruct (Z.leb_spec v UINT32_MAX); [done | lia].
Qed.

(** X17.  For the owner of slot [i] as caller,
    [getReconstructionResult] fails with "Reconstruction not
    completed" exactly when [isProcessed] is false and otherwise
    returns the stored [encryptedResult]; and after an accepted
    [processReconstruction] whose request id is [i] and whose
    cleartexts start with the ABI encoding of a [uint32] [v], it
    returns [FHE.asEuint32 v]. *)
Theorem getReconstructionResult_reads_back c i :
  (forall s, owner (image s i) = msg_sender c ->
     (getReconstructionResult c i s = Revert NotReady <->
      isProcessed (image s i) = false) /\
     (isProcessed (image s i) = true ->
      getReconstructionResult c i s = Ok (encryptedResult (result s i)))) /\
  (forall w c' v extra pf,
     owner (image (storage w) i) = msg_sender c ->
     0 <= v <= UINT32_MAX ->
     succeeds c' (ProcessReconstruction i (abi_encode_uint32 v ++ extra) pf) w = true ->
     getReconstructionResult c i
       (storage (transact c' (ProcessReconstruction i (abi_encode_uint32 v ++ extra) pf) w))
     = Ok (asEuint32 v)).
Proof.
  split.
  - intros s Hown. unfold getReconstructionResult, onlyImageOwner.
    rewrite decide_True by done.
    destruct (isProcessed (image s i)); split; try done.
  - intros w c' v extra pf Hown Hv. unfold succeeds, transact, call.
    rewrite processReconstruction_eq. cbv zeta. rewrite (abi_decode_encode v extra Hv).
    destruct (checkSignatures (fhe w) i (abi_encode_uint32 v ++ extra) pf) as [o'|]; [|done].
    intros _. cbn [storage].
    unfold getReconstructionResult, onlyImageOwner.
    rewrite image_after_write. destruct (decide (i = i)); [|done].
    cbn [markImageProcessed owner isProcessed]. rewrite decide_True by done.
    unfold result. cbn. by rewrite lookup_insert_eq.
Qed.

End Further.

(** * The further properties on concrete traces *)

Lemma uploadEncryptedImage_frame_witness :
  image (storage (transact (H := TableHost) bob (UploadEncryptedImage 6)
                    (run (H := TableHost) completedOnce tableStart))) 2
  = mkImage 2 20 6 200 false /\
  image (storage (transact (H := TableHost) bob (UploadEncryptedImage 6)
                    (run (H := TableHost) completedOnce tableStart))) 1
  = image (storage (run (H := TableHost) completedOnce tableStart)) 1.
Proof.
  pose proof (uploadEncryptedImage_frame (H := TableHost) bob 6
                (run (H := TableHost) completedOnce tableStart)
                (transact (H := TableHost) bob (UploadEncryptedImage 6)
                   (run (H := TableHost) completedOnce tableStart))
                ltac:(vm_compute; reflexivity)) as Hframe.
  cbv zeta in Hframe. destruct Hframe as (_ & Hnew & Hold & _).
  split; [exact Hnew | apply Hold; vm_compute; discriminate].
Defined.

Lemma processReconstruction_frame_witness :
  image (storage (run (H := TableHost) completedOnce tableStart)) 1
  = mkImage 1 10 5 100 true /\
  resultTimestamp (result (storage (run (H := TableHost) completedOnce tableStart)) 1)
  = 300.
Proof.
  pose proof (processReconstruction_frame (H := TableHost) relayer 1 (word Byte.x07)
                goodProof
                (run (H := TableHost) (take 3 completedOnce) tableStart)
                (run (H := TableHost) completedOnce tableStart)
                ltac:(vm_compute; reflexivity)) as Hframe.
  destruct Hframe as (_ & _ & Himg & _ & Hts & _).
  split; [exact Himg | exact Hts].
Defined.

Lemma getReconstructionResult_isolated_witness :
  getReconstructionResult alice 1
    (storage (transact (H := TableHost) bob (UploadEncryptedImage 6)
                (run (H := TableHost) completedOnce tableStart)))
  = getReconstructionResult alice 1
      (storage (run (H := TableHost) completedOnce tableStart)).
Proof.
  apply (getReconstructionResult_isolated (H := TableHost) bob (UploadEncryptedImage 6)
           (run (H := TableHost) completedOnce tableStart) alice 1).
  - vm_compute. split; discriminate.
  - intros ct pf. discriminate.
Defined.

Lemma record_fields_immutable_witness :
  id (image (storage (run (H := TableHost) (drop 1 completedOnce)
                        (run (H := TableHost) uploadedOnly tableStart))) 1) = 1 /\
  owner (image (storage (run (H := TableHost) (drop 1 completedOnce)
                           (run (H := TableHost) uploadedOnly tableStart))) 1) = 10 /\
  encryptedData (image (storage (run (H := TableHost) (drop 1 completedOnce)
                                   (run (H := TableHost) uploadedOnly tableStart))) 1) = 5 /\
  timestamp (image (storage (run (H := TableHost) (drop 1 completedOnce)
                               (run (H := TableHost) uploadedOnly tableStart))) 1) = 100.
Proof.
  apply (record_fields_immutable (H := TableHost) (drop 1 completedOnce)
           (run (H := TableHost) uploadedOnly tableStart) 1).
  vm_compute. split; discriminate.
Defined.

Lemma processed_record_stays_closed_witness :
  requestReconstruction (H := TableHost) alice 1
    (run (H := TableHost) [(bob, UploadEncryptedImage 6); (alice, RequestReconstruction 1)]
       (run (H := TableHost) completedOnce tableStart))
  = Revert AlreadyProcessed /\
  getReconstructionResult alice 1
    (storage
       (run (H := TableHost) [(bob, UploadEncryptedImage 6); (alice, RequestReconstruction 1)]
          (run (H := TableHost) completedOnce tableStart)))
  = Ok 1007.
Proof.
  apply (processed_record_stays_closed (H := TableHost)
           [(bob, UploadEncryptedImage 6); (alice, RequestReconstruction 1)]
           (run (H := TableHost) completedOnce tableStart) alice 1).
  - vm_compute. split; discriminate.
  - vm_compute; reflexivity.
  - vm_compute; reflexivity.
Defined.

Lemma unknown_id_not_authorized_witness :
  requestReconstruction (H := TableHost) bob 2
    (run (H := TableHost) callbackAhead tableStart) = Revert NotAuthorized /\
  getReconstructionResult bob 2
    (storage (run (H := TableHost) callbackAhead tableStart)) = Revert NotAuthorized.
Proof.
  apply (unknown_id_not_authorized (H := TableHost) callbackAhead (mkTable 0 ∅) bob 2).
  - vm_compute. intros [_ Hle]. apply Hle. reflexivity.
  - vm_compute. discriminate.
Defined.

Lemma processReconstruction_cleartext_bounds_witness :
  succeeds (H := TableHost) relayer (ProcessReconstruction 0 [Byte.x07] goodProof)
    (run (H := TableHost) requestedOnce tableStart) = false.
Proof.
  apply (proj1 (processReconstruction_cleartext_bounds (H := TableHost) relayer 0
                  [Byte.x07] goodProof (run (H := TableHost) requestedOnce tableStart))).
  cbn. lia.
Defined.

Lemma getImageMetadata_of_upload_witness :
  getImageMetadata (1 + Z.of_nat 2)
    (storage (run (H := TableHost) threeUploads tableStart))
  = Ok (msg_sender alice, block_timestamp alice,
        isProcessed (image (storage (run (H := TableHost) threeUploads tableStart))
                       (1 + Z.of_nat 2))) /\
  id (image (storage (run (H := TableHost) threeUploads tableStart)) (1 + Z.of_nat 2))
  = 1 + Z.of_nat 2 /\
  encryptedData (image (storage (run (H := TableHost) threeUploads tableStart))
                   (1 + Z.of_nat 2)) = 7 /\
  onlyImageOwner alice (1 + Z.of_nat 2)
    (storage (run (H := TableHost) threeUploads tableStart)) = Ok tt.
Proof.
  apply (getImageMetadata_of_upload (H := TableHost) threeUploads (mkTable 0 ∅)
           2%nat alice 7).
  vm_compute; reflexivity.
Defined.

Lemma events_match_storage_witness :
  1 <= 1 <= imageCount (storage (run (H := TableHost) completedOnce tableStart)) /\
  owner (image (storage (run (H := TableHost) completedOnce tableStart)) 1) = 10 /\
  timestamp (image (storage (run (H := TableHost) completedOnce tableStart)) 1) = 100.
Proof.
  apply (events_match_storage (H := TableHost) completedOnce (mkTable 0 ∅)
           (ImageUploaded 1 10 100)).
  vm_compute. constructor.
Defined.

Lemma zero_address_owns_unknown_ids_witness :
  getReconstructionResult (mkCtx 0 50) 2
    (storage (run (H := TableHost) callbackAhead tableStart))
  = Ok (encryptedResult (result (storage (run (H := TableHost) callbackAhead tableStart)) 2)) /\
  requestReconstruction (H := TableHost) (mkCtx 0 50) 2
    (run (H := TableHost) callbackAhead tableStart) = Revert AlreadyProcessed.
Proof.
  assert (Hp : isProcessed (image (storage (run (H := TableHost) callbackAhead tableStart)) 2)
               = true) by (vm_compute; reflexivity).
  pose proof (zero_address_owns_unknown_ids (H := TableHost) callbackAhead (mkTable 0 ∅)
                (mkCtx 0 50) 2) as Hzero.
  cbv zeta in Hzero. fold tableStart in Hzero. rewrite Hp in Hzero.
  apply Hzero.
  - vm_compute. intros [_ Hle]. apply Hle. reflexivity.
  - reflexivity.
Defined.

Lemma processed_and_results_witness :
  isProcessed
    (image (storage (transact (H := TableHost) bob (UploadEncryptedImage 6)
                       (run (H := TableHost) completedOnce tableStart))) 1) = true /\
  (is_Some (reconstructionResults
              (storage (run (H := TableHost) completedOnce tableStart)) !! 1) <->
   isProcessed (image (storage (run (H := TableHost) completedOnce tableStart)) 1) = true).
Proof.
  pose proof (processed_and_results (H := TableHost) completedOnce (mkTable 0 ∅))
    as Hall.
  cbv zeta in Hall. destruct Hall as (_ & Hstable & Hiff).
  split.
  - apply (Hstable bob (UploadEncryptedImage 6) 1);
      [vm_compute; split; discriminate | vm_compute; reflexivity].
  - apply Hiff. vm_compute. repeat split; try exact I; discriminate.
Defined.

Lemma completed_only_by_callback_witness :
  exists c ct pf,
    (c, ProcessReconstruction 1 ct pf) ∈ accepted (H := TableHost) completedOnce tableStart.
Proof.
  apply (completed_only_by_callback (H := TableHost) completedOnce (mkTable 0 ∅) 1).
  left. vm_compute; reflexivity.
Defined.

Lemma getReconstructionResult_reads_back_witness :
  getReconstructionResult alice 1
    (storage (transact (H := TableHost) relayer
                (ProcessReconstruction 1 (abi_encode_uint32 7 ++ []) goodProof)
                (run (H := TableHost) (take 3 completedOnce) tableStart)))
  = Ok (@asEuint32 TableHost 7).
Proof.
  apply (proj2 (getReconstructionResult_reads_back (H := TableHost) alice 1)
           (run (H := TableHost) (take 3 completedOnce) tableStart)
           relayer 7 [] goodProof).
  - vm_compute; reflexivity.
  - unfold UINT32_MAX. cbn. lia.
  - vm_compute; reflexivity.
Defined.
